(** * CAIF socket address and option vocabulary

    A shallow embedding of [include/linux/caif/caif_socket.h]: the five
    enumerations, numbered by the C rule for enumerators, and
    [struct sockaddr_caif], whose union [u] is laid out in bytes by the
    usual size and alignment rules. *)

From Stdlib Require Import String ZArith List Lia Bool.
From coqutil Require Import Byte Word.LittleEndianList.
Import ListNotations.
Local Open Scope Z_scope.

(** ** C enumerations *)

(** An enumeration is given as the list of its enumerators in the order of
    the declaration, each with its [= constant] when it has one. *)
Module CEnum.
Section Numbering.
Context {A : Type}.
Variable eqb : A -> A -> bool.

(** An enumerator with an initialiser takes that value, one without takes
    the value of the previous enumerator plus one, and the first takes 0. *)
Fixpoint number (next : Z) (decl : list (A * option Z)) : list (A * Z) :=
  match decl with
  | [] => []
  | (x, init) :: rest =>
      let v := match init with Some c => c | None => next end in
      (x, v) :: number (v + 1) rest
  end.

Fixpoint value_in (x : A) (tbl : list (A * Z)) : option Z :=
  match tbl with
  | [] => None
  | (y, v) :: rest => if eqb x y then Some v else value_in x rest
  end.

Fixpoint named_by (z : Z) (tbl : list (A * Z)) : option A :=
  match tbl with
  | [] => None
  | (y, v) :: rest => if z =? v then Some y else named_by z rest
  end.

(** The integer constant an enumerator stands for. *)
Definition val (decl : list (A * option Z)) (x : A) : Z :=
  match value_in x (number 0 decl) with Some v => v | None => 0 end.

(** The enumerator an integer stands for, when there is one. *)
Definition of_Z (decl : list (A * option Z)) (z : Z) : option A :=
  named_by z (number 0 decl).

Definition enumerators (decl : list (A * option Z)) : list A :=
  map fst decl.
End Numbering.
End CEnum.

(** [enum caif_link_selector] *)
Inductive caif_link_selector :=
| CAIF_LINK_HIGH_BANDW
| CAIF_LINK_LOW_LATENCY.

Scheme Equality for caif_link_selector.

Definition caif_link_selector_decl : list (caif_link_selector * option Z) :=
  [ (CAIF_LINK_HIGH_BANDW, None);
    (CAIF_LINK_LOW_LATENCY, None) ].

Definition caif_link_selector_val : caif_link_selector -> Z :=
  CEnum.val caif_link_selector_beq caif_link_selector_decl.

Definition caif_link_selector_of_Z : Z -> option caif_link_selector :=
  CEnum.of_Z caif_link_selector_decl.

(** [enum caif_channel_priority] *)
Inductive caif_channel_priority :=
| CAIF_PRIO_MIN
| CAIF_PRIO_LOW
| CAIF_PRIO_NORMAL
| CAIF_PRIO_HIGH
| CAIF_PRIO_MAX.

Scheme Equality for caif_channel_priority.

Definition caif_channel_priority_decl : list (caif_channel_priority * option Z) :=
  [ (CAIF_PRIO_MIN,    Some 0x01);
    (CAIF_PRIO_LOW,    Some 0x04);
    (CAIF_PRIO_NORMAL, Some 0x0f);
    (CAIF_PRIO_HIGH,   Some 0x14);
    (CAIF_PRIO_MAX,    Some 0x1F) ].

Definition caif_channel_priority_val : caif_channel_priority -> Z :=
  CEnum.val caif_channel_priority_beq caif_channel_priority_decl.

(** [enum caif_protocol_type], with its closing count [_CAIFPROTO_MAX]. *)
Inductive caif_protocol_type :=
| CAIFPROTO_AT
| CAIFPROTO_DATAGRAM
| CAIFPROTO_DATAGRAM_LOOP
| CAIFPROTO_UTIL
| CAIFPROTO_RFM
| _CAIFPROTO_MAX.

Scheme Equality for caif_protocol_type.

Definition caif_protocol_type_decl : list (caif_protocol_type * option Z) :=
  [ (CAIFPROTO_AT, None);
    (CAIFPROTO_DATAGRAM, None);
    (CAIFPROTO_DATAGRAM_LOOP, None);
    (CAIFPROTO_UTIL, None);
    (CAIFPROTO_RFM, None);
    (_CAIFPROTO_MAX, None) ].

Definition caif_protocol_type_val : caif_protocol_type -> Z :=
  CEnum.val caif_protocol_type_beq caif_protocol_type_decl.

Definition caif_protocol_type_of_Z : Z -> option caif_protocol_type :=
  CEnum.of_Z caif_protocol_type_decl.

(** [#define CAIFPROTO_MAX _CAIFPROTO_MAX] *)
Definition CAIFPROTO_MAX : Z := caif_protocol_type_val _CAIFPROTO_MAX.

(** [enum caif_at_type] *)
Inductive caif_at_type :=
| CAIF_ATTYPE_PLAIN.

Scheme Equality for caif_at_type.

Definition caif_at_type_decl : list (caif_at_type * option Z) :=
  [ (CAIF_ATTYPE_PLAIN, Some 2) ].

Definition caif_at_type_val : caif_at_type -> Z :=
  CEnum.val caif_at_type_beq caif_at_type_decl.

Definition caif_at_type_of_Z : Z -> option caif_at_type :=
  CEnum.of_Z caif_at_type_decl.

(** [enum caif_socket_opts] *)
Inductive caif_socket_opts :=
| CAIFSO_LINK_SELECT
| CAIFSO_REQ_PARAM
| CAIFSO_RSP_PARAM.

Scheme Equality for caif_socket_opts.

Definition caif_socket_opts_decl : list (caif_socket_opts * option Z) :=
  [ (CAIFSO_LINK_SELECT, Some 127);
    (CAIFSO_REQ_PARAM,   Some 128);
    (CAIFSO_RSP_PARAM,   Some 129) ].

Definition caif_socket_opts_val : caif_socket_opts -> Z :=
  CEnum.val caif_socket_opts_beq caif_socket_opts_decl.

Definition caif_socket_opts_of_Z : Z -> option caif_socket_opts :=
  CEnum.of_Z caif_socket_opts_decl.

(** ** Object layout *)

(** The member types the header uses.  [__u8], [__u32] and [char] name
    their own width. *)
Inductive ctype :=
| Tchar
| Tu8
| Tu32
| Tarray (elt : ctype) (len : nat)
| Tstruct (ms : members)
| Tunion (ms : members)
with members :=
| Mnil
| Mcons (id : string) (t : ctype) (rest : members).

Module Layout.

Definition align (pos a : nat) : nat := ((pos + a - 1) / a * a)%nat.

Fixpoint alignof (t : ctype) : nat :=
  match t with
  | Tchar | Tu8 => 1
  | Tu32 => 4
  | Tarray elt _ => alignof elt
  | Tstruct ms | Tunion ms => alignof_members ms
  end%nat
with alignof_members (ms : members) : nat :=
  match ms with
  | Mnil => 1
  | Mcons _ t rest => Nat.max (alignof t) (alignof_members rest)
  end%nat.

(** A struct places each member at the next position aligned for it; a
    union places every member at position 0 and is as large as its
    largest member.  Both are padded to a multiple of their alignment. *)
Fixpoint sizeof (t : ctype) : nat :=
  match t with
  | Tchar | Tu8 => 1
  | Tu32 => 4
  | Tarray elt len => len * sizeof elt
  | Tstruct ms => align (struct_end 0 ms) (alignof_members ms)
  | Tunion ms => align (union_end ms) (alignof_members ms)
  end%nat
with struct_end (pos : nat) (ms : members) {struct ms} : nat :=
  match ms with
  | Mnil => pos
  | Mcons _ t rest => struct_end (align pos (alignof t) + sizeof t) rest
  end%nat
with union_end (ms : members) : nat :=
  match ms with
  | Mnil => 0
  | Mcons _ t rest => Nat.max (sizeof t) (union_end rest)
  end%nat.

Fixpoint struct_member (x : string) (pos : nat) (ms : members)
  : option (nat * ctype) :=
  match ms with
  | Mnil => None
  | Mcons id t rest =>
      let here := align pos (alignof t) in
      if String.eqb x id then Some (here, t)
      else struct_member x (here + sizeof t)%nat rest
  end.

Fixpoint union_member (x : string) (ms : members) : option (nat * ctype) :=
  match ms with
  | Mnil => None
  | Mcons id t rest =>
      if String.eqb x id then Some (0%nat, t) else union_member x rest
  end.

Definition member (x : string) (t : ctype) : option (nat * ctype) :=
  match t with
  | Tstruct ms => struct_member x 0 ms
  | Tunion ms => union_member x ms
  | _ => None
  end.

(** Position and type of [t.x1.x2...], counted from the start of [t]. *)
Fixpoint locate (path : list string) (t : ctype) : option (nat * ctype) :=
  match path with
  | [] => Some (0%nat, t)
  | x :: path' =>
      match member x t with
      | Some (off, tx) =>
          match locate path' tx with
          | Some (off', t') => Some ((off + off')%nat, t')
          | None => None
          end
      | None => None
      end
  end.

(** The byte range [(position, size)] of a member; [(0, 0)] for a path
    that names none. *)
Definition extent (path : list string) (t : ctype) : nat * nat :=
  match locate path t with
  | Some (off, t') => (off, sizeof t')
  | None => (0, 0)%nat
  end.

End Layout.

(** Members written as a list, in the order of the declaration. *)
Definition fields (l : list (string * ctype)) : members :=
  fold_right (fun m rest => Mcons (fst m) (snd m) rest) Mnil l.

(** The union [u] of [struct sockaddr_caif]. *)
Definition sockaddr_caif_u : ctype :=
  Tunion (fields
    [ ("at",   Tstruct (fields [ ("type", Tu8) ]));
      ("util", Tstruct (fields [ ("service", Tarray Tchar 16) ]));
      ("dgm",  Tunion  (fields [ ("connection_id", Tu32); ("nsapi", Tu8) ]));
      ("rfm",  Tstruct (fields [ ("connection_id", Tu32);
                                 ("volume", Tarray Tchar 16) ])) ])%string.

(** ** Objects as bytes *)

Inductive byte_order :=
| LittleEndian
| BigEndian.

(** An unsigned integer of [n] bytes; storing converts to the unsigned
    type, that is, reduces modulo [2 ^ (8 * n)]. *)
Definition encode (bo : byte_order) (n : nat) (z : Z) : list byte :=
  match bo with
  | LittleEndian => le_split n z
  | BigEndian => rev (le_split n z)
  end.

Definition decode (bo : byte_order) (bs : list byte) : Z :=
  match bo with
  | LittleEndian => le_combine bs
  | BigEndian => le_combine (rev bs)
  end.

Definition load_bytes (off n : nat) (s : list byte) : list byte :=
  firstn n (skipn off s).

Definition store_bytes (off : nat) (bs s : list byte) : list byte :=
  firstn off s ++ bs ++ skipn (off + length bs) s.

(** [struct sockaddr_caif]: the family and the bytes of the union [u]. *)
Record sockaddr_caif := {
  family : Z;
  u : list byte
}.

Definition u_at_type : nat * nat :=
  Layout.extent ["at"; "type"]%string sockaddr_caif_u.
Definition u_util_service : nat * nat :=
  Layout.extent ["util"; "service"]%string sockaddr_caif_u.
Definition u_dgm : nat * nat :=
  Layout.extent ["dgm"]%string sockaddr_caif_u.
Definition u_dgm_connection_id : nat * nat :=
  Layout.extent ["dgm"; "connection_id"]%string sockaddr_caif_u.
Definition u_dgm_nsapi : nat * nat :=
  Layout.extent ["dgm"; "nsapi"]%string sockaddr_caif_u.
Definition u_rfm_connection_id : nat * nat :=
  Layout.extent ["rfm"; "connection_id"]%string sockaddr_caif_u.
Definition u_rfm_volume : nat * nat :=
  Layout.extent ["rfm"; "volume"]%string sockaddr_caif_u.

(** An address whose union has the size the declaration gives it. *)
Definition sockaddr_caif_sized (a : sockaddr_caif) : Prop :=
  length (u a) = Layout.sizeof sockaddr_caif_u.

(** [memset(&addr, 0, sizeof(addr))] *)
Definition sockaddr_caif_zero : sockaddr_caif :=
  {| family := 0; u := repeat Byte.x00 (Layout.sizeof sockaddr_caif_u) |}.

Section Address.

(** [sa_family_t] comes from [<linux/socket.h>]; it is an unsigned
    integer type, and its width in bits is left open here. *)
Variable family_bits : Z.
Variable bo : byte_order.

(** Reading and writing a member of [u], by its byte range. *)
Definition get_uint (m : nat * nat) (a : sockaddr_caif) : Z :=
  decode bo (load_bytes (fst m) (snd m) (u a)).

Definition set_uint (m : nat * nat) (z : Z) (a : sockaddr_caif)
  : sockaddr_caif :=
  {| family := family a;
     u := store_bytes (fst m) (encode bo (snd m) z) (u a) |}.

Definition get_chars (m : nat * nat) (a : sockaddr_caif) : list byte :=
  load_bytes (fst m) (snd m) (u a).

Definition set_chars (m : nat * nat) (bs : list byte) (a : sockaddr_caif)
  : sockaddr_caif :=
  {| family := family a; u := store_bytes (fst m) bs (u a) |}.

(** [a.family = v] *)
Definition set_family (v : Z) (a : sockaddr_caif) : sockaddr_caif :=
  {| family := v mod 2 ^ family_bits; u := u a |}.

(** The header documents [u] as switched by [family]: [u.at] applies
    when [family = CAIFPROTO_AT], and so on for the other arms. *)
Definition caif_addr (p : caif_protocol_type) : sockaddr_caif :=
  set_family (caif_protocol_type_val p) sockaddr_caif_zero.

Definition caif_addr_protocol (a : sockaddr_caif)
  : option caif_protocol_type :=
  caif_protocol_type_of_Z (family a).

End Address.

(** The arm of [u] that applies to each protocol, as the comments on the
    arms give it; [_CAIFPROTO_MAX] counts the protocols and has none. *)
Definition caif_u_arm (p : caif_protocol_type) : option string :=
  match p with
  | CAIFPROTO_AT => Some "at"
  | CAIFPROTO_UTIL => Some "util"
  | CAIFPROTO_DATAGRAM | CAIFPROTO_DATAGRAM_LOOP => Some "dgm"
  | CAIFPROTO_RFM => Some "rfm"
  | _CAIFPROTO_MAX => None
  end%string.

Section Members.

Variable bo : byte_order.

(** [a.u.at.type] *)
Definition get_u_at_type : sockaddr_caif -> Z := get_uint bo u_at_type.
Definition set_u_at_type : Z -> sockaddr_caif -> sockaddr_caif :=
  set_uint bo u_at_type.

(** [a.u.util.service] *)
Definition get_u_util_service : sockaddr_caif -> list byte :=
  get_chars u_util_service.
Definition set_u_util_service : list byte -> sockaddr_caif -> sockaddr_caif :=
  set_chars u_util_service.

(** [a.u.dgm.connection_id] and [a.u.dgm.nsapi] *)
Definition get_u_dgm_connection_id : sockaddr_caif -> Z :=
  get_uint bo u_dgm_connection_id.
Definition set_u_dgm_connection_id : Z -> sockaddr_caif -> sockaddr_caif :=
  set_uint bo u_dgm_connection_id.
Definition get_u_dgm_nsapi : sockaddr_caif -> Z := get_uint bo u_dgm_nsapi.
Definition set_u_dgm_nsapi : Z -> sockaddr_caif -> sockaddr_caif :=
  set_uint bo u_dgm_nsapi.

(** [a.u.rfm.connection_id] and [a.u.rfm.volume] *)
Definition get_u_rfm_connection_id : sockaddr_caif -> Z :=
  get_uint bo u_rfm_connection_id.
Definition set_u_rfm_connection_id : Z -> sockaddr_caif -> sockaddr_caif :=
  set_uint bo u_rfm_connection_id.
Definition get_u_rfm_volume : sockaddr_caif -> list byte :=
  get_chars u_rfm_volume.
Definition set_u_rfm_volume : list byte -> sockaddr_caif -> sockaddr_caif :=
  set_chars u_rfm_volume.

End Members.

(** ** Constructing addresses and setting options *)

Inductive caif_error :=
| CAIF_ENAME       (* service or volume name longer than its field *)
| CAIF_EPRIO       (* priority outside CAIF_PRIO_MIN..CAIF_PRIO_MAX *)
| CAIF_EPARAM      (* option value of the wrong length *)
| CAIF_EOPT        (* not an option of enum caif_socket_opts *)
| CAIF_EREADONLY   (* setting CAIFSO_RSP_PARAM *)
| CAIF_ECONNECTED  (* setting an option, or connecting, after connect *)
| CAIF_ENOTCONN.   (* reading CAIFSO_RSP_PARAM before connect *)

Inductive result (A : Type) :=
| Ok (a : A)
| Err (e : caif_error).

Arguments Ok {A} a.
Arguments Err {A} e.

(** A name shorter than its field, followed by zero bytes up to the
    field's size. *)
Definition pad_chars (n : nat) (bs : list byte) : list byte :=
  bs ++ repeat Byte.x00 (n - length bs).

(** The input of a datagram address: a connection id or an NSAPI. *)
Inductive caif_dgm_id :=
| DGM_CONNECTION_ID (c : Z)
| DGM_NSAPI (n : Z).

Section Construct.

Variable family_bits : Z.
Variable bo : byte_order.

(** An AT address; the subtype is stored as given. *)
Definition caif_addr_at (type : Z) : sockaddr_caif :=
  set_u_at_type bo type (caif_addr family_bits CAIFPROTO_AT).

(** A datagram address stores the one member its input names. *)
Definition caif_addr_dgm (loop : bool) (id : caif_dgm_id) : sockaddr_caif :=
  let a := caif_addr family_bits
             (if loop then CAIFPROTO_DATAGRAM_LOOP else CAIFPROTO_DATAGRAM) in
  match id with
  | DGM_CONNECTION_ID c => set_u_dgm_connection_id bo c a
  | DGM_NSAPI n => set_u_dgm_nsapi bo n a
  end.

(** Modelled from the spec: the construction of a UTIL address with its
    check of the name's length, which the header, declaring only the
    field [service[16]], does not contain.  A name of at most the field's
    size is stored, a longer one is an error. *)
Definition caif_addr_util (service : list byte) : result sockaddr_caif :=
  if (length service <=? snd u_util_service)%nat
  then Ok (set_u_util_service
             (pad_chars (snd u_util_service) service)
             (caif_addr family_bits CAIFPROTO_UTIL))
  else Err CAIF_ENAME.

(** An RFM address; the connection id and the 16 bytes of the volume name
    are stored as given. *)
Definition caif_addr_rfm (c : Z) (volume : list byte) : sockaddr_caif :=
  set_u_rfm_volume volume
    (set_u_rfm_connection_id bo c (caif_addr family_bits CAIFPROTO_RFM)).

End Construct.

(** Modelled from the spec: the check of a channel priority, which the
    header leaves to the code that receives the priority.  A value from
    [CAIF_PRIO_MIN] to [CAIF_PRIO_MAX] is accepted, any other is an error. *)
Definition caif_priority_check (p : Z) : result Z :=
  if (caif_channel_priority_val CAIF_PRIO_MIN <=? p)
     && (p <=? caif_channel_priority_val CAIF_PRIO_MAX)
  then Ok p
  else Err CAIF_EPRIO.

(** The header gives the bound of the parameter options in its comments:
    "maximum 256 bytes". *)
Definition CAIF_PARAM_MAX : nat := 256.

(** [CAIFSO_LINK_SELECT] "is of type __u32". *)
Definition CAIF_LINK_SELECT_SIZE : nat := Layout.sizeof Tu32.

(** What a socket keeps of its options. *)
Record caif_sock := {
  connected : bool;
  link_select : Z;
  req_param : list byte;
  rsp_param : list byte
}.

Definition caif_sock_init : caif_sock :=
  {| connected := false; link_select := 0; req_param := []; rsp_param := [] |}.

Section Options.

Variable bo : byte_order.

(** Modelled from the spec: [setsockopt] on a CAIF socket, which lives in
    the socket layer and not in the header.  [CAIFSO_LINK_SELECT] takes a
    4-byte selector and [CAIFSO_REQ_PARAM] a buffer of at most 256 bytes,
    both before connect; [CAIFSO_RSP_PARAM] is read-only. *)
Definition caif_setsockopt (sk : caif_sock) (optname : Z)
           (optval : list byte) : result caif_sock :=
  match caif_socket_opts_of_Z optname with
  | Some CAIFSO_LINK_SELECT =>
      if negb (length optval =? CAIF_LINK_SELECT_SIZE)%nat then Err CAIF_EPARAM
      else if connected sk then Err CAIF_ECONNECTED
      else Ok {| connected := connected sk;
                 link_select := decode bo optval;
                 req_param := req_param sk;
                 rsp_param := rsp_param sk |}
  | Some CAIFSO_REQ_PARAM =>
      if negb (length optval <=? CAIF_PARAM_MAX)%nat then Err CAIF_EPARAM
      else if connected sk then Err CAIF_ECONNECTED
      else Ok {| connected := connected sk;
                 link_select := link_select sk;
                 req_param := optval;
                 rsp_param := rsp_param sk |}
  | Some CAIFSO_RSP_PARAM => Err CAIF_EREADONLY
  | None => Err CAIF_EOPT
  end.

(** Modelled from the spec: [getsockopt] on a CAIF socket, which lives in
    the socket layer and not in the header.  [CAIFSO_RSP_PARAM] is valid
    only after a successful connect. *)
Definition caif_getsockopt (sk : caif_sock) (optname : Z)
  : result (list byte) :=
  match caif_socket_opts_of_Z optname with
  | Some CAIFSO_LINK_SELECT =>
      Ok (encode bo CAIF_LINK_SELECT_SIZE (link_select sk))
  | Some CAIFSO_REQ_PARAM => Ok (req_param sk)
  | Some CAIFSO_RSP_PARAM =>
      if connected sk then Ok (rsp_param sk) else Err CAIF_ENOTCONN
  | None => Err CAIF_EOPT
  end.

(** Modelled from the spec: the successful connect of a utility channel,
    which lives in the socket layer and not in the header.  It hands the
    socket the response parameters, at most 256 bytes of them. *)
Definition caif_connect (sk : caif_sock) (rsp : list byte)
  : result caif_sock :=
  if connected sk then Err CAIF_ECONNECTED
  else if negb (length rsp <=? CAIF_PARAM_MAX)%nat then Err CAIF_EPARAM
  else Ok {| connected := true;
             link_select := link_select sk;
             req_param := req_param sk;
             rsp_param := rsp |}.

(** One successful call on a socket. *)
Inductive caif_sock_step : caif_sock -> caif_sock -> Prop :=
| step_setsockopt sk optname optval sk' :
    caif_setsockopt sk optname optval = Ok sk' ->
    caif_sock_step sk sk'
| step_connect sk rsp sk' :
    caif_connect sk rsp = Ok sk' ->
    caif_sock_step sk sk'.

Inductive caif_sock_reachable : caif_sock -> Prop :=
| reach_init : caif_sock_reachable caif_sock_init
| reach_step sk sk' :
    caif_sock_reachable sk -> caif_sock_step sk sk' ->
    caif_sock_reachable sk'.

End Options.

(** ** The whole address *)

(** [struct sockaddr_caif] places [family] at position 0 and [u] at the next
    position aligned for it.  [sa_family_t] comes from [<linux/socket.h>];
    it is an integer type of [family_size] bytes, aligned to its size. *)
Definition sockaddr_caif_u_offset (family_size : nat) : nat :=
  Layout.align family_size (Layout.alignof sockaddr_caif_u).

Definition sockaddr_caif_alignof (family_size : nat) : nat :=
  Nat.max family_size (Layout.alignof sockaddr_caif_u).

Definition sockaddr_caif_sizeof (family_size : nat) : nat :=
  Layout.align
    (sockaddr_caif_u_offset family_size + Layout.sizeof sockaddr_caif_u)
    (sockaddr_caif_alignof family_size).

(** The members of [u] that hold a value, with their types. *)
Definition sockaddr_caif_u_members : list (list string * ctype) :=
  [ (["at"; "type"], Tu8);
    (["util"; "service"], Tarray Tchar 16);
    (["dgm"; "connection_id"], Tu32);
    (["dgm"; "nsapi"], Tu8);
    (["rfm"; "connection_id"], Tu32);
    (["rfm"; "volume"], Tarray Tchar 16) ]%string.

(** * Properties *)

(** ** Bytes of an object *)

Lemma length_encode bo n z : length (encode bo n z) = n.
Proof.
  destruct bo; cbn [encode]; rewrite ?length_rev; apply length_le_split.
Qed.

Lemma decode_encode bo n z :
  decode bo (encode bo n z) = z mod 2 ^ (Z.of_nat n * 8).
Proof.
  destruct bo; cbn [encode decode]; rewrite ?rev_involutive;
    apply le_combine_split.
Qed.

Lemma length_store_bytes off bs s :
  (off + length bs <= length s)%nat ->
  length (store_bytes off bs s) = length s.
Proof.
  intros H. unfold store_bytes.
  rewrite !length_app, length_firstn, length_skipn. lia.
Qed.

Lemma load_store_same off bs s :
  (off <= length s)%nat ->
  load_bytes off (length bs) (store_bytes off bs s) = bs.
Proof.
  intros H. unfold load_bytes, store_bytes.
  rewrite skipn_app, length_firstn.
  replace (Nat.min off (length s)) with off by lia.
  rewrite (skipn_all2 (firstn off s)) by (rewrite length_firstn; lia).
  rewrite Nat.sub_diag. cbn [skipn app].
  rewrite firstn_app, Nat.sub_diag, firstn_all. cbn [firstn].
  apply app_nil_r.
Qed.

Lemma load_store_before off n off' bs s :
  (off + n <= off')%nat -> (off' <= length s)%nat ->
  load_bytes off n (store_bytes off' bs s) = load_bytes off n s.
Proof.
  intros H1 H2. unfold load_bytes, store_bytes.
  rewrite !firstn_skipn_comm. f_equal.
  rewrite firstn_app, length_firstn.
  replace (off + n - Nat.min off' (length s))%nat with 0%nat by lia.
  cbn [firstn]. rewrite app_nil_r, firstn_firstn.
  f_equal. lia.
Qed.

Lemma store_store_cover off bs bs' s :
  (length bs' <= length bs)%nat -> (off + length bs' <= length s)%nat ->
  store_bytes off bs (store_bytes off bs' s) = store_bytes off bs s.
Proof.
  intros H1 H2. unfold store_bytes.
  rewrite firstn_app, length_firstn.
  replace (off - Nat.min off (length s))%nat with 0%nat by lia.
  cbn [firstn]. rewrite app_nil_r, firstn_firstn, Nat.min_id.
  do 2 f_equal.
  rewrite app_assoc, skipn_app, length_app, length_firstn.
  replace (Nat.min off (length s)) with off by lia.
  rewrite skipn_all2 by (rewrite length_app, length_firstn; lia).
  cbn [app]. rewrite skipn_skipn. f_equal. lia.
Qed.

Lemma encode_decode bo bs : encode bo (length bs) (decode bo bs) = bs.
Proof.
  destruct bo; cbn [encode decode].
  - apply split_le_combine.
  - rewrite <- (length_rev bs), split_le_combine. apply rev_involutive.
Qed.

Lemma load_store_prefix off n bs s :
  (n <= length bs)%nat -> (off <= length s)%nat ->
  load_bytes off n (store_bytes off bs s) = firstn n bs.
Proof.
  intros Hn H.
  pose proof (load_store_same off bs s H) as E. unfold load_bytes in *.
  rewrite <- E at 2. rewrite firstn_firstn. f_equal. lia.
Qed.

Lemma store_load_same off n s :
  (off + n <= length s)%nat ->
  store_bytes off (load_bytes off n s) s = s.
Proof.
  intros H. unfold store_bytes, load_bytes.
  rewrite length_firstn, length_skipn.
  replace (off + Nat.min n (length s - off))%nat with (n + off)%nat by lia.
  rewrite <- skipn_skipn, firstn_skipn. apply firstn_skipn.
Qed.

Lemma le_combine_cons_add b t :
  le_combine (b :: t) = byte.unsigned b + 2 ^ 8 * le_combine t.
Proof.
  change (le_combine (b :: t))
    with (Z.lor (byte.unsigned b) (Z.shiftl (le_combine t) 8)).
  assert (H : Z.land (byte.unsigned b) (Z.shiftl (le_combine t) 8) = 0).
  { rewrite <- (byte.wrap_unsigned b). unfold byte.wrap.
    rewrite <- Z.land_ones by lia.
    apply Z.bits_inj'. intros i Hi.
    rewrite !Z.land_spec, Z.bits_0, Z.shiftl_spec by lia.
    destruct (Z.ltb_spec i 8).
    + rewrite (Z.testbit_neg_r _ (i - 8)) by lia. apply andb_false_r.
    + rewrite Z.ones_spec_high by lia. rewrite andb_false_r. reflexivity. }
  rewrite <- Z.lxor_lor by exact H.
  rewrite <- Z.add_nocarry_lxor by exact H.
  rewrite Z.shiftl_mul_pow2 by lia. lia.
Qed.

Lemma le_combine_app_add l1 l2 :
  le_combine (l1 ++ l2)
  = le_combine l1 + 2 ^ (8 * Z.of_nat (length l1)) * le_combine l2.
Proof.
  induction l1 as [| b l1 IH].
  - cbn [app length]. change (le_combine []) with 0.
    change (8 * Z.of_nat 0) with 0. rewrite Z.pow_0_r. lia.
  - cbn [app length]. rewrite !le_combine_cons_add, IH.
    rewrite Nat2Z.inj_succ.
    replace (8 * Z.succ (Z.of_nat (length l1)))
      with (8 + 8 * Z.of_nat (length l1)) by lia.
    rewrite Z.pow_add_r by lia. ring.
Qed.

(** ** Members of the union *)

Lemma sockaddr_caif_u_extents :
  Layout.sizeof sockaddr_caif_u = 20%nat /\
  u_at_type = (0, 1)%nat /\
  u_util_service = (0, 16)%nat /\
  u_dgm = (0, 4)%nat /\
  u_dgm_connection_id = (0, 4)%nat /\
  u_dgm_nsapi = (0, 1)%nat /\
  u_rfm_connection_id = (0, 4)%nat /\
  u_rfm_volume = (4, 16)%nat.
Proof. repeat split; reflexivity. Qed.

Lemma get_set_uint bo m z a :
  (fst m <= length (u a))%nat ->
  get_uint bo m (set_uint bo m z a) = z mod 2 ^ (Z.of_nat (snd m) * 8).
Proof.
  intros H. unfold get_uint, set_uint. cbn [u].
  pose proof (load_store_same (fst m) (encode bo (snd m) z) (u a) H) as E.
  rewrite length_encode in E. rewrite E. apply decode_encode.
Qed.

Lemma get_set_chars m bs a :
  length bs = snd m -> (fst m <= length (u a))%nat ->
  get_chars m (set_chars m bs a) = bs.
Proof.
  intros Hl H. unfold get_chars, set_chars. cbn [u].
  rewrite <- Hl. apply load_store_same, H.
Qed.

Lemma caif_addr_sized family_bits p :
  sockaddr_caif_sized (caif_addr family_bits p).
Proof. unfold sockaddr_caif_sized. cbn [caif_addr set_family u sockaddr_caif_zero]. apply repeat_length. Qed.

Lemma pad_chars_full n bs : length bs = n -> pad_chars n bs = bs.
Proof.
  intros H. unfold pad_chars. rewrite H, Nat.sub_diag. apply app_nil_r.
Qed.

(** ** Socket options *)

Lemma caif_sock_params_bounded bo sk :
  caif_sock_reachable bo sk ->
  (length (req_param sk) <= CAIF_PARAM_MAX)%nat /\
  (length (rsp_param sk) <= CAIF_PARAM_MAX)%nat.
Proof.
  induction 1 as [| sk sk' _ [IHreq IHrsp] Hstep].
  - cbn. lia.
  - destruct Hstep as [sk optname optval sk' E | sk rsp sk' E].
    + unfold caif_setsockopt in E.
      destruct (caif_socket_opts_of_Z optname) as [[ | | ] |];
        try discriminate.
      * destruct (negb _); [discriminate |].
        destruct (connected sk); [discriminate |].
        inversion E; subst; cbn; auto.
      * destruct (Nat.leb_spec (length optval) CAIF_PARAM_MAX);
          cbn [negb] in E; [| discriminate].
        destruct (connected sk); [discriminate |].
        inversion E; subst; cbn; auto.
    + unfold caif_connect in E.
      destruct (connected sk); [discriminate |].
      destruct (Nat.leb_spec (length rsp) CAIF_PARAM_MAX);
        cbn [negb] in E; [| discriminate].
      inversion E; subst; cbn; auto.
Qed.

(** A connect followed by a read of [CAIFSO_RSP_PARAM]. *)
Example caif_rsp_param_after_connect :
  exists sk,
    caif_connect caif_sock_init (list_byte_of_string "OK") = Ok sk /\
    caif_getsockopt LittleEndian sk (caif_socket_opts_val CAIFSO_RSP_PARAM)
    = Ok (list_byte_of_string "OK") /\
    caif_setsockopt LittleEndian sk (caif_socket_opts_val CAIFSO_REQ_PARAM) []
    = Err CAIF_ECONNECTED.
Proof. eexists. repeat split. Qed.

(** ** The claims of the specification *)

(** C1: an address tagged with one of the five protocols AT, DATAGRAM,
    DATAGRAM_LOOP, UTIL and RFM gives that protocol back when its
    discriminator is read, whatever the width of the family field from 8
    bits on, and so does the protocol's integer value by itself; the
    protocols that select an arm of the union are those five and no other,
    every arm of the union is the arm of one of them, and their values are
    the integers below [CAIFPROTO_MAX]. *)
Theorem caif_protocol_discriminator (family_bits : Z) :
  8 <= family_bits ->
  (forall p,
      In p [CAIFPROTO_AT; CAIFPROTO_DATAGRAM; CAIFPROTO_DATAGRAM_LOOP;
            CAIFPROTO_UTIL; CAIFPROTO_RFM] ->
      caif_addr_protocol (caif_addr family_bits p) = Some p /\
      caif_protocol_type_of_Z (caif_protocol_type_val p) = Some p) /\
  (forall p,
      caif_u_arm p <> None <->
      In p [CAIFPROTO_AT; CAIFPROTO_DATAGRAM; CAIFPROTO_DATAGRAM_LOOP;
            CAIFPROTO_UTIL; CAIFPROTO_RFM]) /\
  (forall x,
      Layout.member x sockaddr_caif_u <> None <->
      exists p, caif_u_arm p = Some x) /\
  (forall z p,
      caif_protocol_type_of_Z z = Some p ->
      (caif_u_arm p <> None <-> 0 <= z < CAIFPROTO_MAX)).
Proof.
  intros Hbits.
  assert (Hpow : 2 ^ 8 <= 2 ^ family_bits)
    by (apply Z.pow_le_mono_r; lia).
  split; [| split; [| split]].
  - intros p Hp. unfold caif_addr_protocol, caif_addr, set_family.
    cbn [family].
    rewrite Z.mod_small.
    + destruct p; split; reflexivity.
    + destruct p; cbv [caif_protocol_type_val CEnum.val]; cbn; lia.
  - intros p; split.
    + destruct p; cbn; intros H; auto 10; congruence.
    + destruct p; cbn; intros H; try discriminate;
        repeat (destruct H as [H | H]; try discriminate); contradiction.
  - intros x; split.
    + cbn [Layout.member sockaddr_caif_u fields fold_right fst snd
             Layout.union_member].
      intros H.
      destruct (String.eqb_spec x "at") as [E | _];
        [exists CAIFPROTO_AT; subst x; reflexivity |].
      destruct (String.eqb_spec x "util") as [E | _];
        [exists CAIFPROTO_UTIL; subst x; reflexivity |].
      destruct (String.eqb_spec x "dgm") as [E | _];
        [exists CAIFPROTO_DATAGRAM; subst x; reflexivity |].
      destruct (String.eqb_spec x "rfm") as [E | _];
        [exists CAIFPROTO_RFM; subst x; reflexivity |].
      congruence.
    + intros [p Hp]. destruct p; cbn in Hp; inversion Hp; cbn; discriminate.
  - intros z p H. unfold caif_protocol_type_of_Z, CEnum.of_Z in H.
    cbn in H. change CAIFPROTO_MAX with 5.
    repeat match type of H with
           | (if ?z =? ?v then _ else _) = _ =>
               destruct (Z.eqb_spec z v) as [-> | _];
               [ inversion H; subst; cbn; split; intros; try lia;
                 try discriminate; congruence | ]
           end.
    discriminate.
Qed.

(** Witness of C1 at a 16-bit family field. *)
Lemma caif_protocol_discriminator_witness :
  8 <= 16 /\
  caif_addr_protocol (caif_addr 16 CAIFPROTO_RFM) = Some CAIFPROTO_RFM.
Proof.
  split; [lia |].
  apply (proj1 (caif_protocol_discriminator 16 ltac:(lia)) CAIFPROTO_RFM).
  cbn. auto 10.
Defined.

(** C2: (as amended) in a datagram address the connection id and the NSAPI
    start at the same byte of the same storage, which is as large as the
    connection id alone, and both are read on every address: what is read
    as NSAPI is the first byte of what is read as connection id.  A store
    of the connection id replaces a stored NSAPI altogether; a store of
    the NSAPI replaces that one byte of the connection id and leaves its
    other three.  An address constructed from one of the two inputs reads
    that input back, and the other member as a function of it; the address
    keeps no mark of which input it was made from, an address made from an
    NSAPI being also the address made from the connection id it reads. *)
Theorem caif_dgm_members_alias (family_bits : Z) (bo : byte_order)
        (loop : bool) (a : sockaddr_caif) (c n : Z) :
  sockaddr_caif_sized a ->
  (fst u_dgm_connection_id = fst u_dgm_nsapi /\
   (snd u_dgm_nsapi <= snd u_dgm_connection_id)%nat /\
   snd u_dgm = snd u_dgm_connection_id) /\
  get_u_dgm_nsapi bo a
    = decode bo (firstn 1 (encode bo 4 (get_u_dgm_connection_id bo a))) /\
  get_u_dgm_nsapi bo (set_u_dgm_connection_id bo c a)
    = decode bo (firstn 1 (encode bo 4 c)) /\
  set_u_dgm_connection_id bo c (set_u_dgm_nsapi bo n a)
    = set_u_dgm_connection_id bo c a /\
  get_u_dgm_connection_id bo (set_u_dgm_nsapi bo n a)
    = decode bo
        (encode bo 1 n
           ++ skipn 1 (encode bo 4 (get_u_dgm_connection_id bo a))) /\
  get_u_dgm_connection_id LittleEndian (set_u_dgm_nsapi LittleEndian n a)
    = get_u_dgm_connection_id LittleEndian a
      - get_u_dgm_connection_id LittleEndian a mod 2 ^ 8 + n mod 2 ^ 8 /\
  get_u_dgm_connection_id BigEndian (set_u_dgm_nsapi BigEndian n a)
    = n mod 2 ^ 8 * 2 ^ 24
      + get_u_dgm_connection_id BigEndian a mod 2 ^ 24 /\
  (let by_id := caif_addr_dgm family_bits bo loop (DGM_CONNECTION_ID c) in
   get_u_dgm_connection_id bo by_id = c mod 2 ^ 32 /\
   get_u_dgm_nsapi bo by_id = decode bo (firstn 1 (encode bo 4 c))) /\
  (let by_nsapi := caif_addr_dgm family_bits bo loop (DGM_NSAPI n) in
   get_u_dgm_nsapi bo by_nsapi = n mod 2 ^ 8 /\
   get_u_dgm_connection_id bo by_nsapi
     = decode bo (encode bo 1 n ++ repeat Byte.x00 3) /\
   by_nsapi
     = caif_addr_dgm family_bits bo loop
         (DGM_CONNECTION_ID (get_u_dgm_connection_id bo by_nsapi))).
Proof.
  intros Ha. unfold sockaddr_caif_sized in Ha.
  destruct sockaddr_caif_u_extents
    as (Hsz & _ & _ & Hdgm & Hid & Hns & _ & _).
  rewrite Hsz in Ha.
  assert (Hprefix : forall b : sockaddr_caif,
             length (u b) = 20%nat ->
             get_u_dgm_nsapi bo b
             = decode bo
                 (firstn 1 (encode bo 4 (get_u_dgm_connection_id bo b)))).
  { intros b Hb.
    unfold get_u_dgm_nsapi, get_u_dgm_connection_id, get_uint.
    rewrite Hid, Hns. cbn [fst snd]. unfold load_bytes. cbn [skipn].
    replace 4%nat with (length (firstn 4 (u b))) at 1
      by (rewrite length_firstn; lia).
    rewrite encode_decode, firstn_firstn. reflexivity. }
  assert (Hstore : forall b : sockaddr_caif,
             length (u b) = 20%nat ->
             get_u_dgm_nsapi bo (set_u_dgm_connection_id bo c b)
             = decode bo (firstn 1 (encode bo 4 c))).
  { intros b Hb.
    unfold get_u_dgm_nsapi, set_u_dgm_connection_id, get_uint, set_uint.
    cbn [u]. rewrite Hid, Hns. cbn [fst snd].
    rewrite load_store_prefix; [reflexivity | rewrite length_encode; lia | lia]. }
  assert (Hcover : forall (b : sockaddr_caif) v,
             length (u b) = 20%nat ->
             set_u_dgm_connection_id bo v (set_u_dgm_nsapi bo n b)
             = set_u_dgm_connection_id bo v b).
  { intros b v Hb.
    unfold set_u_dgm_connection_id, set_u_dgm_nsapi, set_uint.
    cbn [u family]. f_equal. rewrite Hid, Hns. cbn [fst snd].
    apply store_store_cover; rewrite !length_encode; lia. }
  assert (Hsame : forall b : sockaddr_caif,
             length (u b) = 20%nat ->
             set_u_dgm_connection_id bo (get_u_dgm_connection_id bo b) b = b).
  { intros [fam s] Hb. cbn [u] in Hb.
    unfold set_u_dgm_connection_id, get_u_dgm_connection_id,
      set_uint, get_uint.
    cbn [u family]. rewrite Hid. cbn [fst snd]. f_equal.
    replace 4%nat with (length (load_bytes 0 4 s)) at 1
      by (unfold load_bytes; rewrite length_firstn, length_skipn; lia).
    rewrite encode_decode. apply store_load_same. lia. }
  assert (Hbytes : forall b : sockaddr_caif,
             length (u b) = 20%nat ->
             exists b0 b1 b2 b3 rest,
               u b = b0 :: b1 :: b2 :: b3 :: rest).
  { intros b Hb.
    destruct (u b) as [| b0 [| b1 [| b2 [| b3 rest]]]]; try discriminate.
    eauto 6. }
  assert (Hzero : forall p, length (u (caif_addr family_bits p)) = 20%nat).
  { intros p. rewrite <- Hsz. apply caif_addr_sized. }
  split; [rewrite Hdgm, Hid, Hns; cbn; lia |].
  split; [apply Hprefix, Ha |].
  split; [apply Hstore, Ha |].
  split; [apply Hcover, Ha |].
  split; [| split; [| split; [| split]]].
  - unfold get_u_dgm_connection_id, set_u_dgm_nsapi, get_uint, set_uint.
    cbn [u]. rewrite Hid, Hns. cbn [fst snd].
    replace (encode bo 4 (decode bo (load_bytes 0 4 (u a))))
      with (load_bytes 0 4 (u a)).
    2:{ symmetry.
        replace 4%nat with (length (load_bytes 0 4 (u a))) at 1
          by (unfold load_bytes; rewrite length_firstn, length_skipn; lia).
        apply encode_decode. }
    f_equal. unfold load_bytes, store_bytes. rewrite length_encode.
    rewrite !skipn_O, firstn_O. cbn [app Nat.add].
    rewrite firstn_app, length_encode.
    rewrite firstn_all2 by (rewrite length_encode; lia).
    f_equal. apply (firstn_skipn_comm 3 1).
  - destruct (Hbytes a Ha) as (b0 & b1 & b2 & b3 & rest & Hu).
    unfold get_u_dgm_connection_id, set_u_dgm_nsapi, get_uint, set_uint.
    cbn [u]. rewrite Hid, Hns, Hu. cbn [fst snd].
    change (load_bytes 0 4
              (store_bytes 0 (encode LittleEndian 1 n)
                 (b0 :: b1 :: b2 :: b3 :: rest)))
      with (byte.of_Z n :: [b1; b2; b3]).
    change (load_bytes 0 4 (b0 :: b1 :: b2 :: b3 :: rest))
      with (b0 :: [b1; b2; b3]).
    cbn [decode].
    rewrite (le_combine_cons_add b0), (le_combine_cons_add (byte.of_Z n)).
    rewrite byte.unsigned_of_Z. unfold byte.wrap.
    pose proof (byte.unsigned_range b0) as Hb0.
    replace ((byte.unsigned b0 + 2 ^ 8 * le_combine [b1; b2; b3]) mod 2 ^ 8)
      with (byte.unsigned b0).
    + lia.
    + rewrite (Z.mul_comm (2 ^ 8)), Z_mod_plus_full.
      symmetry. apply Z.mod_small. exact Hb0.
  - destruct (Hbytes a Ha) as (b0 & b1 & b2 & b3 & rest & Hu).
    unfold get_u_dgm_connection_id, set_u_dgm_nsapi, get_uint, set_uint.
    cbn [u]. rewrite Hid, Hns, Hu. cbn [fst snd].
    change (decode BigEndian
              (load_bytes 0 4
                 (store_bytes 0 (encode BigEndian 1 n)
                    (b0 :: b1 :: b2 :: b3 :: rest))))
      with (le_combine ([b3; b2; b1] ++ [byte.of_Z n])).
    change (decode BigEndian (load_bytes 0 4 (b0 :: b1 :: b2 :: b3 :: rest)))
      with (le_combine ([b3; b2; b1] ++ [b0])).
    rewrite !le_combine_app_add, !le_combine_1, byte.unsigned_of_Z.
    unfold byte.wrap. cbn [length].
    change (2 ^ (8 * Z.of_nat 3)) with (2 ^ 24).
    pose proof (le_combine_bound [b3; b2; b1]) as Hr.
    cbn [length] in Hr. change (2 ^ (8 * Z.of_nat 3)) with (2 ^ 24) in Hr.
    replace ((le_combine [b3; b2; b1] + 2 ^ 24 * byte.unsigned b0)
               mod 2 ^ 24)
      with (le_combine [b3; b2; b1]).
    + lia.
    + rewrite (Z.mul_comm (2 ^ 24)), Z_mod_plus_full.
      symmetry. apply Z.mod_small. exact Hr.
  - cbn zeta. unfold caif_addr_dgm. split.
    + unfold get_u_dgm_connection_id, set_u_dgm_connection_id.
      rewrite get_set_uint by (rewrite Hzero, Hid; cbn; lia).
      rewrite Hid. reflexivity.
    + apply Hstore, Hzero.
  - cbn zeta. unfold caif_addr_dgm. split; [| split].
    + unfold get_u_dgm_nsapi, set_u_dgm_nsapi.
      rewrite get_set_uint by (rewrite Hzero, Hns; cbn; lia).
      rewrite Hns. reflexivity.
    + unfold get_u_dgm_connection_id, set_u_dgm_nsapi, get_uint, set_uint.
      cbn [u]. rewrite Hid, Hns. cbn [fst snd].
      cbn [caif_addr set_family u sockaddr_caif_zero]. rewrite Hsz.
      destruct bo; reflexivity.
    + set (z0 := caif_addr family_bits
                   (if loop then CAIFPROTO_DATAGRAM_LOOP
                    else CAIFPROTO_DATAGRAM)).
      set (x := set_u_dgm_nsapi bo n z0).
      assert (Hx : length (u x) = 20%nat).
      { unfold x, z0, set_u_dgm_nsapi, set_uint. cbn [u].
        rewrite length_store_bytes;
          [apply Hzero | rewrite length_encode, Hns, Hzero; cbn; lia]. }
      rewrite <- (Hcover z0 _ (Hzero _)). fold x.
      symmetry. apply Hsame, Hx.
Qed.

(** Witness of C2: on the zeroed address of a little-endian machine, the
    NSAPI 0xAA stored after the connection id 0x01020304. *)
Lemma caif_dgm_members_alias_witness :
  sockaddr_caif_sized
    (set_u_dgm_connection_id LittleEndian 0x01020304 sockaddr_caif_zero) /\
  get_u_dgm_connection_id LittleEndian
    (set_u_dgm_nsapi LittleEndian 0xAA
       (set_u_dgm_connection_id LittleEndian 0x01020304 sockaddr_caif_zero))
  = 0x010203AA /\
  get_u_dgm_nsapi LittleEndian
    (set_u_dgm_connection_id LittleEndian 0x01020304 sockaddr_caif_zero)
  = 4.
Proof.
  split; [reflexivity |].
  pose proof (caif_dgm_members_alias 16 LittleEndian false
                (set_u_dgm_connection_id LittleEndian 0x01020304
                   sockaddr_caif_zero)
                0x01020304 0xAA eq_refl)
    as (_ & H1 & _ & _ & _ & H2 & _).
  split; [exact H2 | exact H1].
Defined.

(** Counterexample to C2 as stated: the address made from the connection
    id 5 and the address made from the NSAPI 5 are one and the same value,
    on which both members read 5; so nothing computed from a constructed
    address tells which of the two interpretations is the active one. *)
Lemma caif_dgm_no_active_member :
  caif_addr_dgm 16 LittleEndian false (DGM_CONNECTION_ID 5)
    = caif_addr_dgm 16 LittleEndian false (DGM_NSAPI 5) /\
  get_u_dgm_connection_id LittleEndian
    (caif_addr_dgm 16 LittleEndian false (DGM_NSAPI 5)) = 5 /\
  get_u_dgm_nsapi LittleEndian
    (caif_addr_dgm 16 LittleEndian false (DGM_CONNECTION_ID 5)) = 5 /\
  ~ (exists active : sockaddr_caif -> bool,
        forall c n,
          active (caif_addr_dgm 16 LittleEndian false (DGM_CONNECTION_ID c))
            = true /\
          active (caif_addr_dgm 16 LittleEndian false (DGM_NSAPI n))
            = false).
Proof.
  assert (E : caif_addr_dgm 16 LittleEndian false (DGM_CONNECTION_ID 5)
              = caif_addr_dgm 16 LittleEndian false (DGM_NSAPI 5))
    by reflexivity.
  split; [exact E |]. split; [reflexivity |]. split; [reflexivity |].
  intros [active H].
  destruct (H 5 5) as [Hid Hns]. rewrite E in Hid. congruence.
Qed.

(** C3: the service field of a UTIL address is 16 bytes; a name of exactly
    16 bytes makes an address from which the same name is read back, and a
    name of 17 bytes, or of any greater length, is refused. *)
Theorem caif_addr_util_service (family_bits : Z) (service : list byte) :
  snd u_util_service = 16%nat /\
  (length service = 16%nat ->
   exists a, caif_addr_util family_bits service = Ok a /\
             sockaddr_caif_sized a /\
             get_u_util_service a = service) /\
  (length service = 17%nat ->
   caif_addr_util family_bits service = Err CAIF_ENAME) /\
  ((16 < length service)%nat ->
   caif_addr_util family_bits service = Err CAIF_ENAME).
Proof.
  destruct sockaddr_caif_u_extents as (Hsz & _ & Hm & _).
  assert (Hlong : (16 < length service)%nat ->
                  caif_addr_util family_bits service = Err CAIF_ENAME).
  { intros H. unfold caif_addr_util. rewrite Hm. cbn [snd].
    destruct (Nat.leb_spec (length service) 16); [lia | reflexivity]. }
  split; [rewrite Hm; reflexivity |].
  split; [| split; [intros H; apply Hlong; lia | exact Hlong]].
  intros H. unfold caif_addr_util. rewrite Hm. cbn [snd].
  rewrite H. cbn [Nat.leb]. eexists. split; [reflexivity |].
  rewrite pad_chars_full by exact H. split.
  - unfold sockaddr_caif_sized, set_u_util_service, set_chars. cbn [u].
    rewrite length_store_bytes; [apply caif_addr_sized |].
    rewrite Hm, H. cbn. lia.
  - unfold get_u_util_service, set_u_util_service.
    apply get_set_chars; [rewrite Hm; exact H |].
    rewrite Hm. cbn. lia.
Qed.

(** Witness of C3: a name of 16 bytes and one of 17. *)
Lemma caif_addr_util_service_witness :
  (length (list_byte_of_string "caif_psock_00016") = 16%nat /\
   exists a,
     caif_addr_util 16 (list_byte_of_string "caif_psock_00016") = Ok a /\
     sockaddr_caif_sized a /\
     get_u_util_service a = list_byte_of_string "caif_psock_00016") /\
  (length (list_byte_of_string "caif_psock_000017") = 17%nat /\
   caif_addr_util 16 (list_byte_of_string "caif_psock_000017")
   = Err CAIF_ENAME).
Proof.
  split; (split; [reflexivity |]).
  - apply (proj1 (proj2 (caif_addr_util_service 16 _))). reflexivity.
  - apply (proj1 (proj2 (proj2 (caif_addr_util_service 16 _)))). reflexivity.
Defined.

(** C4: an RFM address made from a connection id within the unsigned
    32-bit range and a volume name of exactly 16 bytes gives both back
    unchanged. *)
Theorem caif_addr_rfm_roundtrip (family_bits : Z) (bo : byte_order)
        (c : Z) (volume : list byte) :
  0 <= c <= 2 ^ 32 - 1 ->
  length volume = 16%nat ->
  let a := caif_addr_rfm family_bits bo c volume in
  sockaddr_caif_sized a /\
  get_u_rfm_volume a = volume /\
  get_u_rfm_connection_id bo a = c.
Proof.
  intros Hc Hv.
  destruct sockaddr_caif_u_extents as (Hsz & _ & _ & _ & _ & _ & Hid & Hvol).
  cbn zeta. unfold caif_addr_rfm.
  set (a0 := set_u_rfm_connection_id bo c (caif_addr family_bits CAIFPROTO_RFM)).
  assert (Ha0 : length (u a0) = 20%nat).
  { unfold a0, set_u_rfm_connection_id, set_uint. cbn [u].
    rewrite length_store_bytes; rewrite ?length_encode, ?Hid;
      cbn; lia. }
  split; [| split].
  - unfold sockaddr_caif_sized, set_u_rfm_volume, set_chars. cbn [u].
    rewrite length_store_bytes; rewrite ?Hvol, ?Hv, ?Ha0, ?Hsz; cbn; lia.
  - unfold get_u_rfm_volume, set_u_rfm_volume.
    apply get_set_chars; rewrite Hvol; cbn [fst snd]; lia.
  - unfold get_u_rfm_connection_id, get_uint, set_u_rfm_volume, set_chars.
    cbn [u]. rewrite Hid, Hvol. cbn [fst snd].
    rewrite load_store_before by lia.
    change (decode bo (load_bytes 0 4 (u a0)))
      with (get_uint bo u_rfm_connection_id a0).
    unfold a0, set_u_rfm_connection_id.
    rewrite get_set_uint by (cbn; lia).
    rewrite Hid. cbn [snd]. apply Z.mod_small.
    change (2 ^ (Z.of_nat 4 * 8)) with (2 ^ 32). lia.
Qed.

(** Witness of C4: the greatest connection id and a volume name of 16
    bytes, on a big-endian machine. *)
Lemma caif_addr_rfm_roundtrip_witness :
  0 <= 4294967295 <= 2 ^ 32 - 1 /\
  length (list_byte_of_string "/rfm/volume/0016") = 16%nat /\
  get_u_rfm_connection_id BigEndian
    (caif_addr_rfm 16 BigEndian 4294967295
       (list_byte_of_string "/rfm/volume/0016"))
  = 4294967295.
Proof.
  split; [lia |]. split; [reflexivity |].
  apply (caif_addr_rfm_roundtrip 16 BigEndian 4294967295
           (list_byte_of_string "/rfm/volume/0016")); [lia | reflexivity].
Defined.

(** C5: the priority constants are MIN = 1, LOW = 4, NORMAL = 15, HIGH = 20
    and MAX = 31, and they increase strictly in that order. *)
Theorem caif_prio_constants :
  caif_channel_priority_val CAIF_PRIO_MIN = 1 /\
  caif_channel_priority_val CAIF_PRIO_LOW = 4 /\
  caif_channel_priority_val CAIF_PRIO_NORMAL = 15 /\
  caif_channel_priority_val CAIF_PRIO_HIGH = 20 /\
  caif_channel_priority_val CAIF_PRIO_MAX = 31 /\
  caif_channel_priority_val CAIF_PRIO_MIN < caif_channel_priority_val CAIF_PRIO_LOW /\
  caif_channel_priority_val CAIF_PRIO_LOW < caif_channel_priority_val CAIF_PRIO_NORMAL /\
  caif_channel_priority_val CAIF_PRIO_NORMAL < caif_channel_priority_val CAIF_PRIO_HIGH /\
  caif_channel_priority_val CAIF_PRIO_HIGH < caif_channel_priority_val CAIF_PRIO_MAX.
Proof. repeat split; reflexivity. Qed.

(** C6: a channel priority is accepted exactly when it lies between
    [CAIF_PRIO_MIN] and [CAIF_PRIO_MAX], that is, from 1 to 31, the ends
    included; any other value is refused.  So 1, 4, 15, 20 and 31 are
    accepted, and 0 and 32 are refused. *)
Theorem caif_priority_check_range (p : Z) :
  (caif_priority_check p = Ok p <->
   caif_channel_priority_val CAIF_PRIO_MIN <= p
     <= caif_channel_priority_val CAIF_PRIO_MAX) /\
  (caif_priority_check p = Ok p <-> 1 <= p <= 31) /\
  (caif_priority_check p = Err CAIF_EPRIO <-> p < 1 \/ 31 < p) /\
  Forall (fun v => caif_priority_check v = Ok v) [1; 4; 15; 20; 31] /\
  Forall (fun v => caif_priority_check v = Err CAIF_EPRIO) [0; 32].
Proof.
  assert (Hmin : caif_channel_priority_val CAIF_PRIO_MIN = 1) by reflexivity.
  assert (Hmax : caif_channel_priority_val CAIF_PRIO_MAX = 31) by reflexivity.
  assert (Hcases :
            (1 <= p <= 31 /\ caif_priority_check p = Ok p) \/
            ((p < 1 \/ 31 < p) /\ caif_priority_check p = Err CAIF_EPRIO)).
  { unfold caif_priority_check. rewrite Hmin, Hmax.
    destruct (Z.leb_spec 1 p); destruct (Z.leb_spec p 31); cbn [andb];
      [left | right | right | right]; split; (lia || reflexivity). }
  rewrite Hmin, Hmax.
  split; [| split; [| split; [| split]]].
  - destruct Hcases as [[? E] | [? E]]; rewrite E; split; intros;
      (lia || congruence).
  - destruct Hcases as [[? E] | [? E]]; rewrite E; split; intros;
      (lia || congruence).
  - destruct Hcases as [[? E] | [? E]]; rewrite E; split; intros;
      (lia || congruence).
  - repeat constructor.
  - repeat constructor.
Qed.

(** Witness of C6: the priority 17, between NORMAL and HIGH. *)
Lemma caif_priority_check_range_witness :
  1 <= 17 <= 31 /\ caif_priority_check 17 = Ok 17.
Proof.
  split; [lia |].
  apply (proj1 (proj2 (caif_priority_check_range 17))). lia.
Defined.

(** C7: the option identifiers are LINK_SELECT = 127, REQ_PARAM = 128 and
    RSP_PARAM = 129, and no two options share an identifier. *)
Theorem caif_socket_opts_ids :
  caif_socket_opts_val CAIFSO_LINK_SELECT = 127 /\
  caif_socket_opts_val CAIFSO_REQ_PARAM = 128 /\
  caif_socket_opts_val CAIFSO_RSP_PARAM = 129 /\
  (forall o1 o2 : caif_socket_opts,
      caif_socket_opts_val o1 = caif_socket_opts_val o2 -> o1 = o2).
Proof.
  repeat split; try reflexivity.
  intros [] []; cbv; congruence.
Qed.

(** C8: on a socket that is not yet connected, [CAIFSO_REQ_PARAM] accepts
    a buffer exactly when it has at most 256 bytes, the empty buffer
    included, and keeps it; a buffer of 257 bytes or more is refused on
    every socket.  On every socket that calls can lead to, the request
    parameters kept and the response parameters that [CAIFSO_RSP_PARAM]
    returns have at most 256 bytes. *)
Theorem caif_param_length (bo : byte_order) (sk : caif_sock)
        (optval : list byte) :
  caif_sock_reachable bo sk ->
  (connected sk = false ->
   (length optval <= 256)%nat ->
   exists sk',
     caif_setsockopt bo sk (caif_socket_opts_val CAIFSO_REQ_PARAM) optval
     = Ok sk' /\
     req_param sk' = optval) /\
  (length optval = 257%nat ->
   caif_setsockopt bo sk (caif_socket_opts_val CAIFSO_REQ_PARAM) optval
   = Err CAIF_EPARAM) /\
  ((256 < length optval)%nat ->
   caif_setsockopt bo sk (caif_socket_opts_val CAIFSO_REQ_PARAM) optval
   = Err CAIF_EPARAM) /\
  (length (req_param sk) <= 256)%nat /\
  (forall v,
      caif_getsockopt bo sk (caif_socket_opts_val CAIFSO_RSP_PARAM) = Ok v ->
      (length v <= 256)%nat).
Proof.
  intros Hreach.
  destruct (caif_sock_params_bounded bo sk Hreach) as [Hreq Hrsp].
  change CAIF_PARAM_MAX with 256%nat in Hreq, Hrsp.
  assert (Hlong : (256 < length optval)%nat ->
                  caif_setsockopt bo sk
                    (caif_socket_opts_val CAIFSO_REQ_PARAM) optval
                  = Err CAIF_EPARAM).
  { intros H. unfold caif_setsockopt.
    change (caif_socket_opts_of_Z (caif_socket_opts_val CAIFSO_REQ_PARAM))
      with (Some CAIFSO_REQ_PARAM).
    cbv iota beta.
    destruct (Nat.leb_spec (length optval) CAIF_PARAM_MAX) as [H' | _];
      [change CAIF_PARAM_MAX with 256%nat in H'; lia | reflexivity]. }
  split; [| split; [intros H; apply Hlong; lia |
                    split; [exact Hlong | split; [exact Hreq |]]]].
  - intros Hconn Hlen. unfold caif_setsockopt.
    change (caif_socket_opts_of_Z (caif_socket_opts_val CAIFSO_REQ_PARAM))
      with (Some CAIFSO_REQ_PARAM).
    cbv iota beta.
    destruct (Nat.leb_spec (length optval) CAIF_PARAM_MAX) as [_ | H'];
      [| change CAIF_PARAM_MAX with 256%nat in H'; lia].
    cbn [negb]. rewrite Hconn. eexists. split; reflexivity.
  - intros v E. unfold caif_getsockopt in E.
    change (caif_socket_opts_of_Z (caif_socket_opts_val CAIFSO_RSP_PARAM))
      with (Some CAIFSO_RSP_PARAM) in E.
    cbv iota beta in E.
    destruct (connected sk); [| discriminate].
    inversion E; subst. exact Hrsp.
Qed.

(** Witness of C8: buffers of 256 and of 257 bytes on a fresh socket. *)
Lemma caif_param_length_witness :
  caif_sock_reachable LittleEndian caif_sock_init /\
  (exists sk',
      caif_setsockopt LittleEndian caif_sock_init
        (caif_socket_opts_val CAIFSO_REQ_PARAM) (repeat Byte.xff 256)
      = Ok sk' /\
      req_param sk' = repeat Byte.xff 256) /\
  caif_setsockopt LittleEndian caif_sock_init
    (caif_socket_opts_val CAIFSO_REQ_PARAM) (repeat Byte.xff 257)
  = Err CAIF_EPARAM.
Proof.
  split; [apply reach_init |]. split.
  - apply (proj1 (caif_param_length LittleEndian caif_sock_init
                    (repeat Byte.xff 256) (reach_init LittleEndian)));
      [reflexivity | rewrite repeat_length; lia].
  - apply (proj1 (proj2 (caif_param_length LittleEndian caif_sock_init
                           (repeat Byte.xff 257) (reach_init LittleEndian)))).
    apply repeat_length.
Defined.

(** C9: [CAIF_ATTYPE_PLAIN], of value 2, is the one constant of the AT
    subtype; an AT address stores any one-byte subtype as given and reads
    it back unchanged, whether or not it is the value of a constant. *)
Theorem caif_addr_at_type_roundtrip (family_bits : Z) (bo : byte_order)
        (type : Z) :
  0 <= type < 2 ^ 8 ->
  get_u_at_type bo (caif_addr_at family_bits bo type) = type /\
  caif_addr_protocol (caif_addr_at family_bits bo type)
    = caif_addr_protocol (caif_addr family_bits CAIFPROTO_AT) /\
  caif_at_type_val CAIF_ATTYPE_PLAIN = 2 /\
  CEnum.enumerators caif_at_type_decl = [CAIF_ATTYPE_PLAIN] /\
  caif_at_type_of_Z type
    = (if type =? 2 then Some CAIF_ATTYPE_PLAIN else None).
Proof.
  intros Hty. split; [| split; [| split; [| split]]]; try reflexivity.
  unfold get_u_at_type, caif_addr_at, set_u_at_type.
  rewrite get_set_uint by (cbn; lia).
  apply Z.mod_small. exact Hty.
Qed.

(** Witness of C9: the subtype 255, which is no constant of the
    enumeration, on a little-endian machine with a 16-bit family. *)
Lemma caif_addr_at_type_roundtrip_witness :
  0 <= 255 < 2 ^ 8 /\
  get_u_at_type LittleEndian (caif_addr_at 16 LittleEndian 255) = 255.
Proof.
  split; [lia |].
  apply (caif_addr_at_type_roundtrip 16 LittleEndian 255). lia.
Defined.

(** C10: the link selector has the two values [CAIF_LINK_HIGH_BANDW] = 0
    and [CAIF_LINK_LOW_LATENCY] = 1; a [CAIFSO_LINK_SELECT] value of four
    zero bytes denotes [CAIF_LINK_HIGH_BANDW] in either byte order; an
    integer other than 0 and 1 denotes no selector. *)
Theorem caif_link_selector_values (bo : byte_order) (z : Z) :
  CEnum.enumerators caif_link_selector_decl
    = [CAIF_LINK_HIGH_BANDW; CAIF_LINK_LOW_LATENCY] /\
  caif_link_selector_val CAIF_LINK_HIGH_BANDW = 0 /\
  caif_link_selector_val CAIF_LINK_LOW_LATENCY = 1 /\
  caif_link_selector_of_Z
    (decode bo (repeat Byte.x00 CAIF_LINK_SELECT_SIZE))
    = Some CAIF_LINK_HIGH_BANDW /\
  caif_link_selector_of_Z z
    = (if z =? 0 then Some CAIF_LINK_HIGH_BANDW
       else if z =? 1 then Some CAIF_LINK_LOW_LATENCY
       else None).
Proof.
  split; [| split; [| split; [| split]]];
    try reflexivity; destruct bo; reflexivity.
Qed.

(** * Further properties of the header *)

(** ** Single bytes of an object *)

Lemma nth_error_store_bytes off bs s i :
  (off <= length s)%nat ->
  nth_error (store_bytes off bs s) i =
  if (i <? off)%nat then nth_error s i
  else if (i <? off + length bs)%nat then nth_error bs (i - off)
  else nth_error s i.
Proof.
  intros H. unfold store_bytes.
  destruct (Nat.ltb_spec i off) as [Hi | Hi].
  - rewrite nth_error_app1 by (rewrite length_firstn; lia).
    rewrite nth_error_firstn.
    destruct (Nat.ltb_spec i off); [reflexivity | lia].
  - rewrite nth_error_app2 by (rewrite length_firstn; lia).
    rewrite length_firstn.
    replace (Nat.min off (length s)) with off by lia.
    destruct (Nat.ltb_spec i (off + length bs)) as [Hj | Hj].
    + rewrite nth_error_app1 by lia. reflexivity.
    + rewrite nth_error_app2 by lia. rewrite nth_error_skipn.
      f_equal. lia.
Qed.

Lemma store_bytes_comm off1 bs1 off2 bs2 s :
  (off1 + length bs1 <= off2)%nat ->
  (off2 + length bs2 <= length s)%nat ->
  store_bytes off1 bs1 (store_bytes off2 bs2 s)
  = store_bytes off2 bs2 (store_bytes off1 bs1 s).
Proof.
  intros H1 H2. apply nth_error_ext. intros i.
  rewrite !nth_error_store_bytes
    by (rewrite ?length_store_bytes; lia).
  destruct (Nat.ltb_spec i off1); destruct (Nat.ltb_spec i off2);
    destruct (Nat.ltb_spec i (off1 + length bs1));
    destruct (Nat.ltb_spec i (off2 + length bs2));
    try reflexivity; lia.
Qed.

Lemma sized_set_uint bo m z a :
  (fst m + snd m <= length (u a))%nat ->
  length (u (set_uint bo m z a)) = length (u a).
Proof.
  intros H. unfold set_uint. cbn [u].
  apply length_store_bytes. rewrite length_encode. exact H.
Qed.

Lemma sized_set_chars m bs a :
  length bs = snd m ->
  (fst m + snd m <= length (u a))%nat ->
  length (u (set_chars m bs a)) = length (u a).
Proof.
  intros Hl H. unfold set_chars. cbn [u].
  apply length_store_bytes. rewrite Hl. exact H.
Qed.

Lemma load_store_after off n off' bs s :
  (off' + length bs <= off)%nat -> (off' <= length s)%nat ->
  load_bytes off n (store_bytes off' bs s) = load_bytes off n s.
Proof.
  intros H1 H2. unfold load_bytes, store_bytes. f_equal.
  rewrite app_assoc, skipn_app, length_app, length_firstn.
  replace (Nat.min off' (length s)) with off' by lia.
  rewrite skipn_all2 by (rewrite length_app, length_firstn; lia).
  cbn [app]. rewrite skipn_skipn. f_equal. lia.
Qed.

(** ** Layout of the address *)

(** X1: for a family type of 1 to 4 bytes the union [u] starts at byte 4
    and the address is 24 bytes long.  [u] is 20 bytes, aligned to 4, the
    size of its largest arm [rfm], which has no padding; every member of
    [u] lies within these 20 bytes at a position aligned for its type. *)
Theorem sockaddr_caif_layout (family_size : nat) :
  (1 <= family_size <= 4)%nat ->
  sockaddr_caif_u_offset family_size = 4%nat /\
  sockaddr_caif_sizeof family_size = 24%nat /\
  Layout.sizeof sockaddr_caif_u = 20%nat /\
  Layout.alignof sockaddr_caif_u = 4%nat /\
  Layout.extent ["rfm"]%string sockaddr_caif_u
    = (0, snd u_rfm_connection_id + snd u_rfm_volume)%nat /\
  Forall
    (fun m =>
       exists off,
         Layout.locate (fst m) sockaddr_caif_u = Some (off, snd m) /\
         (off + Layout.sizeof (snd m) <= Layout.sizeof sockaddr_caif_u)%nat /\
         (off mod Layout.alignof (snd m) = 0)%nat)
    sockaddr_caif_u_members.
Proof.
  intros H.
  assert (Hcases : family_size = 1%nat \/ family_size = 2%nat \/
                   family_size = 3%nat \/ family_size = 4%nat) by lia.
  split; [| split].
  - destruct Hcases as [-> | [-> | [-> | ->]]]; reflexivity.
  - destruct Hcases as [-> | [-> | [-> | ->]]]; reflexivity.
  - split; [reflexivity |]. split; [reflexivity |].
    split; [reflexivity |].
    repeat constructor; eexists;
      (split; [reflexivity | split; [cbn; lia | reflexivity]]).
Qed.

(** Witness of X1: [sa_family_t] of two bytes. *)
Lemma sockaddr_caif_layout_witness :
  (1 <= 2 <= 4)%nat /\
  sockaddr_caif_u_offset 2 = 4%nat /\
  sockaddr_caif_sizeof 2 = 24%nat.
Proof.
  split; [lia |].
  pose proof (sockaddr_caif_layout 2 ltac:(lia)) as (H1 & H2 & _).
  split; [exact H1 | exact H2].
Defined.

(** ** Members of any address *)

(** X2: a store to an integer member of [u] converts to the member's
    unsigned type: whatever integer is stored, [u.at.type] and
    [u.dgm.nsapi] read back its residue modulo 2^8 and the two connection
    ids its residue modulo 2^32, on any address and in either byte order. *)
Theorem u_integer_members_wrap (bo : byte_order) (a : sockaddr_caif)
        (z : Z) :
  sockaddr_caif_sized a ->
  get_u_at_type bo (set_u_at_type bo z a) = z mod 2 ^ 8 /\
  get_u_dgm_nsapi bo (set_u_dgm_nsapi bo z a) = z mod 2 ^ 8 /\
  get_u_dgm_connection_id bo (set_u_dgm_connection_id bo z a)
    = z mod 2 ^ 32 /\
  get_u_rfm_connection_id bo (set_u_rfm_connection_id bo z a)
    = z mod 2 ^ 32.
Proof.
  intros Ha. unfold sockaddr_caif_sized in Ha.
  destruct sockaddr_caif_u_extents
    as (Hsz & Hat & _ & _ & Hid & Hns & Hrid & _).
  rewrite Hsz in Ha.
  unfold get_u_at_type, set_u_at_type, get_u_dgm_nsapi, set_u_dgm_nsapi,
    get_u_dgm_connection_id, set_u_dgm_connection_id,
    get_u_rfm_connection_id, set_u_rfm_connection_id.
  rewrite !get_set_uint by (rewrite ?Hat, ?Hid, ?Hns, ?Hrid; cbn; lia).
  rewrite Hat, Hid, Hns, Hrid. repeat split.
Qed.

(** Witness of X2: 256 stored into [u.at.type] reads back as 0, and -1
    stored into a connection id reads back as 2^32 - 1. *)
Lemma u_integer_members_wrap_witness :
  sockaddr_caif_sized sockaddr_caif_zero /\
  get_u_at_type BigEndian (set_u_at_type BigEndian 256 sockaddr_caif_zero)
  = 0 /\
  get_u_rfm_connection_id BigEndian
    (set_u_rfm_connection_id BigEndian (-1) sockaddr_caif_zero)
  = 4294967295.
Proof.
  split; [reflexivity |].
  split.
  - apply (proj1 (u_integer_members_wrap BigEndian sockaddr_caif_zero 256
                    eq_refl)).
  - apply (proj2 (proj2 (proj2
             (u_integer_members_wrap BigEndian sockaddr_caif_zero (-1)
                eq_refl)))).
Defined.

(** X3: every store to a member of [u] leaves the union at its size, and
    a 16-byte name stored into [u.util.service] or [u.rfm.volume] of any
    address reads back unchanged. *)
Theorem u_member_stores_keep_size (bo : byte_order) (a : sockaddr_caif)
        (z : Z) (name : list byte) :
  sockaddr_caif_sized a ->
  length name = 16%nat ->
  sockaddr_caif_sized (set_u_at_type bo z a) /\
  sockaddr_caif_sized (set_u_dgm_connection_id bo z a) /\
  sockaddr_caif_sized (set_u_dgm_nsapi bo z a) /\
  sockaddr_caif_sized (set_u_rfm_connection_id bo z a) /\
  sockaddr_caif_sized (set_u_util_service name a) /\
  sockaddr_caif_sized (set_u_rfm_volume name a) /\
  get_u_util_service (set_u_util_service name a) = name /\
  get_u_rfm_volume (set_u_rfm_volume name a) = name.
Proof.
  intros Ha Hn. unfold sockaddr_caif_sized in *.
  destruct sockaddr_caif_u_extents
    as (Hsz & Hat & Hsv & _ & Hid & Hns & Hrid & Hvol).
  rewrite Hsz in *.
  unfold set_u_at_type, set_u_dgm_connection_id, set_u_dgm_nsapi,
    set_u_rfm_connection_id, set_u_util_service, set_u_rfm_volume,
    get_u_util_service, get_u_rfm_volume.
  rewrite !sized_set_uint
    by (rewrite ?Hat, ?Hid, ?Hns, ?Hrid; cbn [fst snd]; lia).
  rewrite !sized_set_chars
    by (rewrite ?Hsv, ?Hvol; cbn [fst snd]; lia).
  rewrite !get_set_chars
    by (rewrite ?Hsv, ?Hvol; cbn [fst snd]; lia).
  repeat split; exact Ha.
Qed.

(** Witness of X3: the zeroed address and a 16-byte name. *)
Lemma u_member_stores_keep_size_witness :
  sockaddr_caif_sized sockaddr_caif_zero /\
  length (list_byte_of_string "0123456789abcdef") = 16%nat /\
  get_u_util_service
    (set_u_util_service (list_byte_of_string "0123456789abcdef")
       sockaddr_caif_zero)
  = list_byte_of_string "0123456789abcdef".
Proof.
  split; [reflexivity |]. split; [reflexivity |].
  apply (u_member_stores_keep_size LittleEndian sockaddr_caif_zero 0
           (list_byte_of_string "0123456789abcdef") eq_refl eq_refl).
Defined.

(** X4: the two members of [u.rfm] do not share bytes: a store to the
    volume leaves the connection id as it was, a store to the connection
    id leaves the volume as it was, and the two stores give the same
    address in either order. *)
Theorem u_rfm_members_independent (bo : byte_order) (a : sockaddr_caif)
        (c : Z) (volume : list byte) :
  sockaddr_caif_sized a ->
  length volume = 16%nat ->
  get_u_rfm_connection_id bo (set_u_rfm_volume volume a)
    = get_u_rfm_connection_id bo a /\
  get_u_rfm_volume (set_u_rfm_connection_id bo c a) = get_u_rfm_volume a /\
  set_u_rfm_volume volume (set_u_rfm_connection_id bo c a)
    = set_u_rfm_connection_id bo c (set_u_rfm_volume volume a).
Proof.
  intros Ha Hv. unfold sockaddr_caif_sized in Ha.
  destruct sockaddr_caif_u_extents as (Hsz & _ & _ & _ & _ & _ & Hid & Hvol).
  rewrite Hsz in Ha.
  unfold get_u_rfm_connection_id, set_u_rfm_connection_id,
    get_u_rfm_volume, set_u_rfm_volume, get_uint, set_uint,
    get_chars, set_chars.
  cbn [u family]. rewrite Hid, Hvol. cbn [fst snd].
  split; [| split].
  - rewrite load_store_before by lia. reflexivity.
  - rewrite load_store_after by (rewrite ?length_encode; lia). reflexivity.
  - f_equal. symmetry.
    apply store_bytes_comm; rewrite ?length_encode; lia.
Qed.

(** Witness of X4: connection id 7 and a 16-byte volume on the zeroed
    address. *)
Lemma u_rfm_members_independent_witness :
  sockaddr_caif_sized sockaddr_caif_zero /\
  length (list_byte_of_string "/rfm/volume/0016") = 16%nat /\
  set_u_rfm_volume (list_byte_of_string "/rfm/volume/0016")
    (set_u_rfm_connection_id LittleEndian 7 sockaddr_caif_zero)
  = set_u_rfm_connection_id LittleEndian 7
      (set_u_rfm_volume (list_byte_of_string "/rfm/volume/0016")
         sockaddr_caif_zero).
Proof.
  split; [reflexivity |]. split; [reflexivity |].
  apply (u_rfm_members_independent LittleEndian sockaddr_caif_zero 7
           (list_byte_of_string "/rfm/volume/0016") eq_refl eq_refl).
Defined.

(** X5: the arms of [u] share their bytes.  A connection id stored through
    [u.dgm] is the one read through [u.rfm] and the other way round, a
    byte stored as [u.dgm.nsapi] is the one read as [u.at.type] and the
    other way round, and the service name read from an address filled as
    RFM is the four bytes of the connection id followed by the first
    twelve bytes of the volume. *)
Theorem u_arms_share_bytes (bo : byte_order) (a : sockaddr_caif)
        (c n : Z) (volume : list byte) :
  sockaddr_caif_sized a ->
  length volume = 16%nat ->
  get_u_rfm_connection_id bo (set_u_dgm_connection_id bo c a)
    = c mod 2 ^ 32 /\
  get_u_dgm_connection_id bo (set_u_rfm_connection_id bo c a)
    = c mod 2 ^ 32 /\
  get_u_at_type bo (set_u_dgm_nsapi bo n a) = n mod 2 ^ 8 /\
  get_u_dgm_nsapi bo (set_u_at_type bo n a) = n mod 2 ^ 8 /\
  get_u_util_service
    (set_u_rfm_volume volume (set_u_rfm_connection_id bo c a))
    = encode bo 4 c ++ firstn 12 volume.
Proof.
  intros Ha Hv. unfold sockaddr_caif_sized in Ha.
  destruct sockaddr_caif_u_extents
    as (Hsz & Hat & Hsv & _ & Hid & Hns & Hrid & Hvol).
  rewrite Hsz in Ha.
  assert (H32 : forall m, m = (0, 4)%nat ->
                  get_uint bo m (set_uint bo m c a) = c mod 2 ^ 32).
  { intros m ->. rewrite get_set_uint by (cbn; lia). reflexivity. }
  assert (H8 : forall m, m = (0, 1)%nat ->
                  get_uint bo m (set_uint bo m n a) = n mod 2 ^ 8).
  { intros m ->. rewrite get_set_uint by (cbn; lia). reflexivity. }
  unfold get_u_rfm_connection_id, set_u_dgm_connection_id,
    get_u_dgm_connection_id, set_u_rfm_connection_id,
    get_u_at_type, set_u_dgm_nsapi, get_u_dgm_nsapi, set_u_at_type.
  rewrite Hid, Hrid, Hat, Hns.
  split; [apply H32; reflexivity |].
  split; [apply H32; reflexivity |].
  split; [apply H8; reflexivity |].
  split; [apply H8; reflexivity |].
  unfold get_u_util_service, set_u_rfm_volume, get_chars, set_chars,
    set_uint.
  cbn [u]. rewrite Hsv, Hvol. cbn [fst snd].
  apply nth_error_ext. intros i.
  unfold load_bytes. cbn [skipn].
  rewrite nth_error_firstn.
  rewrite !nth_error_store_bytes
    by (rewrite ?length_store_bytes; rewrite ?length_encode; lia).
  rewrite length_encode, Hv. cbn [Nat.add].
  destruct (Nat.ltb_spec i 16) as [Hi | Hi].
  - destruct (Nat.ltb_spec i 4) as [Hi4 | Hi4].
    + destruct (Nat.ltb_spec i 0); [lia |].
      rewrite Nat.sub_0_r.
      rewrite nth_error_app1 by (rewrite length_encode; lia).
      reflexivity.
    + destruct (Nat.ltb_spec i 20); [| lia].
      rewrite nth_error_app2 by (rewrite length_encode; lia).
      rewrite length_encode, nth_error_firstn.
      destruct (Nat.ltb_spec (i - 4) 12); [reflexivity | lia].
  - symmetry. apply nth_error_None.
    rewrite length_app, length_encode, length_firstn. lia.
Qed.

(** Witness of X5: on the zeroed address. *)
Lemma u_arms_share_bytes_witness :
  sockaddr_caif_sized sockaddr_caif_zero /\
  length (list_byte_of_string "/rfm/volume/0016") = 16%nat /\
  get_u_util_service
    (set_u_rfm_volume (list_byte_of_string "/rfm/volume/0016")
       (set_u_rfm_connection_id LittleEndian 0x64636261 sockaddr_caif_zero))
  = list_byte_of_string "abcd/rfm/volume/".
Proof.
  split; [reflexivity |]. split; [reflexivity |].
  apply (proj2 (proj2 (proj2 (proj2
           (u_arms_share_bytes LittleEndian sockaddr_caif_zero 0x64636261 0
              (list_byte_of_string "/rfm/volume/0016") eq_refl eq_refl))))).
Defined.

(** X6: which byte of the connection id the NSAPI shares depends on the
    byte order.  After a store of connection id [c], [u.dgm.nsapi] reads
    the lowest byte of [c] on a little-endian machine and the highest on
    a big-endian one; on a zeroed address given only the NSAPI [n], the
    connection id reads as [n mod 2^8] on the first and as that value
    times 2^24 on the second. *)
Theorem u_dgm_nsapi_byte_order (family_bits : Z) (loop : bool)
        (a : sockaddr_caif) (c n : Z) :
  sockaddr_caif_sized a ->
  get_u_dgm_nsapi LittleEndian (set_u_dgm_connection_id LittleEndian c a)
    = c mod 2 ^ 8 /\
  get_u_dgm_nsapi BigEndian (set_u_dgm_connection_id BigEndian c a)
    = (c / 2 ^ 24) mod 2 ^ 8 /\
  get_u_dgm_connection_id LittleEndian
    (caif_addr_dgm family_bits LittleEndian loop (DGM_NSAPI n))
    = n mod 2 ^ 8 /\
  get_u_dgm_connection_id BigEndian
    (caif_addr_dgm family_bits BigEndian loop (DGM_NSAPI n))
    = n mod 2 ^ 8 * 2 ^ 24.
Proof.
  intros Ha. unfold sockaddr_caif_sized in Ha.
  destruct sockaddr_caif_u_extents
    as (Hsz & _ & _ & _ & Hid & Hns & _ & _).
  rewrite Hsz in Ha.
  assert (Hload : forall bo,
             get_u_dgm_nsapi bo (set_u_dgm_connection_id bo c a)
             = decode bo (firstn 1 (encode bo 4 c))).
  { intros bo.
    unfold get_u_dgm_nsapi, set_u_dgm_connection_id, get_uint, set_uint.
    cbn [u]. rewrite Hid, Hns. cbn [fst snd].
    rewrite load_store_prefix by (rewrite ?length_encode; lia).
    reflexivity. }
  split; [| split; [| split]].
  - rewrite Hload. cbn [encode decode]. unfold le_split. cbn [firstn].
    rewrite le_combine_1, byte.unsigned_of_Z. reflexivity.
  - rewrite Hload. cbn [encode decode]. unfold le_split.
    cbn [rev app]. cbn [firstn]. cbn [rev app].
    rewrite le_combine_1, byte.unsigned_of_Z. unfold byte.wrap.
    rewrite !Z.shiftr_shiftr by lia.
    rewrite Z.shiftr_div_pow2 by lia. reflexivity.
  - change (get_u_dgm_connection_id LittleEndian
              (caif_addr_dgm family_bits LittleEndian loop (DGM_NSAPI n)))
      with (le_combine ([byte.of_Z n] ++ repeat Byte.x00 3)).
    rewrite le_combine_app_0, le_combine_1, byte.unsigned_of_Z.
    reflexivity.
  - change (get_u_dgm_connection_id BigEndian
              (caif_addr_dgm family_bits BigEndian loop (DGM_NSAPI n)))
      with (le_combine (repeat Byte.x00 3 ++ [byte.of_Z n])).
    rewrite le_combine_app, le_combine_0, le_combine_1,
      byte.unsigned_of_Z.
    rewrite Z.lor_0_l, repeat_length.
    rewrite Z.shiftl_mul_pow2 by lia. reflexivity.
Qed.

(** Witness of X6: connection id 0x01020304 on the zeroed address. *)
Lemma u_dgm_nsapi_byte_order_witness :
  sockaddr_caif_sized sockaddr_caif_zero /\
  get_u_dgm_nsapi LittleEndian
    (set_u_dgm_connection_id LittleEndian 0x01020304 sockaddr_caif_zero) = 4 /\
  get_u_dgm_nsapi BigEndian
    (set_u_dgm_connection_id BigEndian 0x01020304 sockaddr_caif_zero) = 1.
Proof.
  split; [reflexivity |].
  pose proof (u_dgm_nsapi_byte_order 16 false sockaddr_caif_zero
                0x01020304 0 eq_refl) as (H1 & H2 & _).
  split; [exact H1 | exact H2].
Defined.

(** X7: a store to a member of [u] changes no byte outside the member:
    every byte of the union before the member's first byte or after its
    last is the same after the store as before. *)
Theorem u_member_store_confined (bo : byte_order) (a : sockaddr_caif)
        (m : nat * nat) (z : Z) (name : list byte) (i : nat) :
  sockaddr_caif_sized a ->
  In m (map (fun p => Layout.extent (fst p) sockaddr_caif_u)
          sockaddr_caif_u_members) ->
  length name = snd m ->
  (i < fst m \/ fst m + snd m <= i)%nat ->
  nth_error (u (set_uint bo m z a)) i = nth_error (u a) i /\
  nth_error (u (set_chars m name a)) i = nth_error (u a) i.
Proof.
  intros Ha Hm Hn Hi. unfold sockaddr_caif_sized in Ha.
  destruct sockaddr_caif_u_extents as (Hsz & _).
  rewrite Hsz in Ha.
  assert (Hin : (fst m + snd m <= 20)%nat).
  { cbn in Hm.
    repeat (destruct Hm as [<- | Hm]; [cbn; lia |]). contradiction. }
  unfold set_uint, set_chars. cbn [u].
  rewrite !nth_error_store_bytes by lia.
  rewrite length_encode, Hn.
  destruct (Nat.ltb_spec i (fst m)); [split; reflexivity |].
  destruct (Nat.ltb_spec i (fst m + snd m)); [lia | split; reflexivity].
Qed.

(** Witness of X7: byte 3 after a store to [u.at.type]. *)
Lemma u_member_store_confined_witness :
  sockaddr_caif_sized sockaddr_caif_zero /\
  In u_at_type (map (fun p => Layout.extent (fst p) sockaddr_caif_u)
                  sockaddr_caif_u_members) /\
  (3 < fst u_at_type \/ fst u_at_type + snd u_at_type <= 3)%nat /\
  nth_error (u (set_uint LittleEndian u_at_type 2 sockaddr_caif_zero)) 3
  = nth_error (u sockaddr_caif_zero) 3.
Proof.
  split; [reflexivity |].
  split; [left; reflexivity |].
  split; [right; cbn; lia |].
  apply (u_member_store_confined LittleEndian sockaddr_caif_zero u_at_type
           2 [Byte.x00] 3 eq_refl);
    [left; reflexivity | reflexivity | right; cbn; lia].
Defined.

(** ** Enumerators as integers *)

(** X8: in each enumeration that is decoded, an integer stands for an
    enumerator exactly when it is that enumerator's value; so no two
    enumerators share a value and every other integer stands for none. *)
Theorem caif_enum_decode_exact (z : Z) :
  (forall p, caif_protocol_type_of_Z z = Some p <->
             caif_protocol_type_val p = z) /\
  (forall l, caif_link_selector_of_Z z = Some l <->
             caif_link_selector_val l = z) /\
  (forall t, caif_at_type_of_Z z = Some t <-> caif_at_type_val t = z) /\
  (forall o, caif_socket_opts_of_Z z = Some o <->
             caif_socket_opts_val o = z).
Proof.
  split; [| split; [| split]]; intros e; split.
  all: try (intros <-; destruct e; reflexivity).
  all: intros H; cbv [caif_protocol_type_of_Z caif_link_selector_of_Z
                      caif_at_type_of_Z caif_socket_opts_of_Z CEnum.of_Z] in H;
    cbn in H;
    repeat match type of H with
           | (if ?x =? ?v then _ else _) = _ =>
               destruct (Z.eqb_spec x v) as [-> | _];
               [destruct e; (discriminate || reflexivity) |]
           end;
    discriminate.
Qed.

(** X9: the enumerators fit the objects that carry them.  A link selector
    written as the four bytes of a [CAIFSO_LINK_SELECT] value decodes to
    the same selector in either byte order, and an AT subtype constant
    stored in [u.at.type] of any address reads back as the same constant. *)
Theorem caif_enumerators_fit (bo : byte_order) (a : sockaddr_caif)
        (l : caif_link_selector) (t : caif_at_type) :
  sockaddr_caif_sized a ->
  length (encode bo CAIF_LINK_SELECT_SIZE (caif_link_selector_val l))
    = 4%nat /\
  caif_link_selector_of_Z
    (decode bo (encode bo CAIF_LINK_SELECT_SIZE (caif_link_selector_val l)))
    = Some l /\
  caif_at_type_of_Z
    (get_u_at_type bo (set_u_at_type bo (caif_at_type_val t) a))
    = Some t.
Proof.
  intros Ha. unfold sockaddr_caif_sized in Ha.
  destruct sockaddr_caif_u_extents as (Hsz & Hat & _).
  rewrite Hsz in Ha.
  split; [apply length_encode |]. split.
  - rewrite decode_encode. destruct l; reflexivity.
  - unfold get_u_at_type, set_u_at_type.
    rewrite get_set_uint by (rewrite Hat; cbn; lia).
    rewrite Hat. destruct t; reflexivity.
Qed.

(** Witness of X9: the low-latency selector and the plain AT subtype. *)
Lemma caif_enumerators_fit_witness :
  sockaddr_caif_sized sockaddr_caif_zero /\
  caif_link_selector_of_Z
    (decode BigEndian
       (encode BigEndian CAIF_LINK_SELECT_SIZE
          (caif_link_selector_val CAIF_LINK_LOW_LATENCY)))
  = Some CAIF_LINK_LOW_LATENCY.
Proof.
  split; [reflexivity |].
  apply (proj1 (proj2 (caif_enumerators_fit BigEndian sockaddr_caif_zero
                         CAIF_LINK_LOW_LATENCY CAIF_ATTYPE_PLAIN eq_refl))).
Defined.

(** X10: [CAIFPROTO_MAX] is 5, the number of protocols, and the protocols
    take the values below it without a gap: an integer is the value of a
    protocol other than the closing [_CAIFPROTO_MAX] exactly when it is at
    least 0 and less than [CAIFPROTO_MAX]. *)
Theorem caif_protocols_below_max (z : Z) :
  CAIFPROTO_MAX = 5 /\
  CAIFPROTO_MAX
    = Z.of_nat (length (CEnum.enumerators caif_protocol_type_decl)) - 1 /\
  (0 <= z < CAIFPROTO_MAX <->
   exists p, p <> _CAIFPROTO_MAX /\ caif_protocol_type_val p = z).
Proof.
  split; [reflexivity |]. split; [reflexivity |].
  change CAIFPROTO_MAX with 5. split.
  - intros Hz.
    assert (Hcases : z = 0 \/ z = 1 \/ z = 2 \/ z = 3 \/ z = 4) by lia.
    destruct Hcases as [-> | [-> | [-> | [-> | ->]]]];
      [ exists CAIFPROTO_AT | exists CAIFPROTO_DATAGRAM
      | exists CAIFPROTO_DATAGRAM_LOOP | exists CAIFPROTO_UTIL
      | exists CAIFPROTO_RFM ];
      (split; [discriminate | reflexivity]).
  - intros [p [Hp <-]]. destruct p; cbv; split; congruence.
Qed.
